(** * The terminate-handler manager of ggml (src/ggml/src/ggml.cpp)

    A shallow embedding of [GgmlTerminateHandler]: its constructor, its
    destructor and the static [custom_terminate_handler], over an explicit
    process state.  The C++ runtime's handler cell ([std::get_terminate] /
    [std::set_terminate]), the process environment ([getenv]) and the static
    member [s_previous_handler] are fields of that state; every observable
    action is appended to an event log, so that "is invoked once", "writes
    nothing" and "in this order" are statements about the log. *)

From Stdlib Require Import String List Bool Arith Lia.
From ExtLib Require Import Structures.Monad.
Import ListNotations.
Import MonadNotation.
Open Scope string_scope.
Open Scope list_scope.
Open Scope monad_scope.

Set Implicit Arguments.

(* ------------------------------------------------------------------ *)
(** ** Function pointers of type [std::terminate_handler] *)

(** The class compares handlers by address only, so a handler is one of:
    the null pointer, the address of the class's own static member
    function, or the address of some function of the host program. *)
Inductive terminate_handler : Type :=
| nullptr
| addr_custom                 (* &GgmlTerminateHandler::custom_terminate_handler *)
| foreign (id : nat).         (* any other function, identified by [id] *)

Definition handler_eqb (a b : terminate_handler) : bool :=
  match a, b with
  | nullptr, nullptr => true
  | addr_custom, addr_custom => true
  | foreign i, foreign j => Nat.eqb i j
  | _, _ => false
  end.

(** [if (h)] on a pointer. *)
Definition is_set (h : terminate_handler) : bool :=
  match h with nullptr => false | _ => true end.

(* ------------------------------------------------------------------ *)
(** ** Process state *)

Definition environment := list (string * string).

Record process : Type := mkProcess {
  environ : environment;                   (* the process environment *)
  terminate_slot : terminate_handler;      (* the runtime's current handler *)
  s_previous_handler : terminate_handler   (* the class's static member *)
}.

(** The part of the state that code outside this translation unit can
    reach; [s_previous_handler] is a private static of a class in an
    anonymous namespace. *)
Definition host : Type := (environment * terminate_handler)%type.

Definition host_of (p : process) : host := (environ p, terminate_slot p).

Definition with_host (hs : host) (p : process) : process :=
  mkProcess (fst hs) (snd hs) (s_previous_handler p).

(** The static member's initialiser, [= nullptr], in a process whose
    environment is [e] and whose current handler is [h]. *)
Definition at_load (e : environment) (h : terminate_handler) : process :=
  mkProcess e h nullptr.

Fixpoint lookup_env (name : string) (e : environment) : option string :=
  match e with
  | [] => None
  | (k, v) :: rest => if String.eqb k name then Some v else lookup_env name rest
  end.

(** [setenv(name, value, 1)] called by the host program. *)
Definition setenv (name value : string) (p : process) : process :=
  mkProcess ((name, value) :: environ p) (terminate_slot p) (s_previous_handler p).

(** [std::set_terminate(h)] called by some other party. *)
Definition other_party_sets (h : terminate_handler) (p : process) : process :=
  mkProcess (environ p) h (s_previous_handler p).

(* ------------------------------------------------------------------ *)
(** ** Events and outcomes *)

Inductive event : Type :=
| EvSetTerminate (h : terminate_handler)   (* std::set_terminate(h) *)
| EvStorePrevious (h : terminate_handler)  (* s_previous_handler = h *)
| EvBacktrace                              (* ggml_print_backtrace() *)
| EvInvoke (h : terminate_handler)         (* call through the pointer h *)
| EvAbort.                                 (* abort() *)

(** How a call into code that is not in this file ends. *)
Inductive outcome : Type :=
| Returns      (* control comes back to the caller *)
| Stops        (* control never comes back (the callee ended the process) *)
| Throws.      (* an exception leaves the callee *)

(** How a computation of this file ends. *)
Inductive result (A : Type) : Type :=
| Done (a : A)     (* ran to its end, or to a [return] *)
| NoReturn         (* control never comes back to the caller *)
| Raised           (* an exception propagates to the caller *)
| Undefined        (* a call through the null pointer *)
| OutOfFuel.       (* the nesting bound of the model was reached *)

Arguments NoReturn {A}.
Arguments Raised {A}.
Arguments Undefined {A}.
Arguments OutOfFuel {A}.

Record run (A : Type) : Type := mkRun {
  trace : list event;
  res : result A;
  final : process
}.

(** Computations: state passing, an event log, early exit. *)
Definition M (A : Type) : Type := process -> run A.

Definition M_ret {A} (a : A) : M A := fun p => mkRun [] (Done a) p.

Definition M_bind {A B} (m : M A) (k : A -> M B) : M B :=
  fun p =>
    let r := m p in
    match res r with
    | Done a => let r' := k a (final r) in
                mkRun (trace r ++ trace r') (res r') (final r')
    | NoReturn => mkRun (trace r) NoReturn (final r)
    | Raised => mkRun (trace r) Raised (final r)
    | Undefined => mkRun (trace r) Undefined (final r)
    | OutOfFuel => mkRun (trace r) OutOfFuel (final r)
    end.

#[global] Instance Monad_M : Monad M :=
  {| ret := @M_ret; bind := @M_bind |}.

Definition of_outcome (o : outcome) : result unit :=
  match o with
  | Returns => Done tt
  | Stops => NoReturn
  | Throws => Raised
  end.

(* ------------------------------------------------------------------ *)
(** ** The library calls the class makes *)

(** [getenv(name)]: a pointer to the value, or null. *)
Definition getenv (name : string) : M (option string) :=
  fun p => mkRun [] (Done (lookup_env name (environ p))) p.

(** [std::get_terminate()]. *)
Definition std_get_terminate : M terminate_handler :=
  fun p => mkRun [] (Done (terminate_slot p)) p.

(** [std::set_terminate(h)]: stores [h], returns the handler it replaced. *)
Definition std_set_terminate (h : terminate_handler) : M terminate_handler :=
  fun p => mkRun [EvSetTerminate h] (Done (terminate_slot p))
                 (mkProcess (environ p) h (s_previous_handler p)).

(** Reading and assigning the static member. *)
Definition load_previous : M terminate_handler :=
  fun p => mkRun [] (Done (s_previous_handler p)) p.

Definition store_previous (h : terminate_handler) : M unit :=
  fun p => mkRun [EvStorePrevious h] (Done tt)
                 (mkProcess (environ p) (terminate_slot p) h).

(** [abort()] never returns. *)
Definition abort {A} : M A := fun p => mkRun [EvAbort] NoReturn p.

Definition out_of_fuel {A} : M A := fun p => mkRun [] OutOfFuel p.

Definition log (ev : event) : M unit := fun p => mkRun [ev] (Done tt) p.

(** The collaborators that are not in this file: the backtrace reporter
    and the functions of the host program that may sit in the handler
    cell.  Each sees the host-visible state and says how its call ends. *)
Record world : Type := mkWorld {
  reporter : host -> outcome * host;
  foreign_handler : nat -> host -> outcome * host
}.

Definition external (ev : event) (f : host -> outcome * host) : M unit :=
  fun p => let r := f (host_of p) in
           mkRun [ev] (of_outcome (fst r)) (with_host (snd r) p).

(** [ggml_print_backtrace()]. *)
Definition ggml_print_backtrace (w : world) : M unit :=
  external EvBacktrace (reporter w).

(** [h()] for a handler pointer [h]; [self] is what runs when [h] is the
    address of [custom_terminate_handler]. *)
Definition invoke (w : world) (self : M unit) (h : terminate_handler) : M unit :=
  match h with
  | nullptr => fun p => mkRun [EvInvoke nullptr] Undefined p
  | addr_custom => log (EvInvoke addr_custom) ;; self
  | foreign n => external (EvInvoke (foreign n)) (foreign_handler w n)
  end.

(* ------------------------------------------------------------------ *)
(** ** The class *)

(** [GgmlTerminateHandler::GgmlTerminateHandler()]. *)
Definition GgmlTerminateHandler_ctor : M unit :=
  v <- getenv "GGML_NO_BACKTRACE" ;;
  match v with
  | Some _ => ret tt
  | None =>
      cur <- std_get_terminate ;;
      store_previous cur ;;
      prev <- load_previous ;;
      if handler_eqb prev addr_custom then ret tt
      else (std_set_terminate addr_custom ;; ret tt)
  end.

(** [GgmlTerminateHandler::~GgmlTerminateHandler()]. *)
Definition GgmlTerminateHandler_dtor : M unit :=
  cur <- std_get_terminate ;;
  if handler_eqb cur addr_custom then
    (prev <- load_previous ;; std_set_terminate prev ;; ret tt)
  else ret tt.

(** The statements of [GgmlTerminateHandler::custom_terminate_handler()];
    [self] is the function again, for the call through
    [s_previous_handler] when that pointer is the function's own address. *)
Definition custom_terminate_handler_body (w : world) (self : M unit) : M unit :=
  ggml_print_backtrace w ;;
  prev <- load_previous ;;
  (if is_set prev then
     (h <- load_previous ;; invoke w self h)
   else ret tt) ;;
  abort.

(** [GgmlTerminateHandler::custom_terminate_handler()].  [fuel] bounds the
    nesting of activations. *)
Fixpoint custom_terminate_handler (w : world) (fuel : nat) : M unit :=
  match fuel with
  | O => out_of_fuel
  | S k => custom_terminate_handler_body w (custom_terminate_handler w k)
  end.

(* ------------------------------------------------------------------ *)
(** ** Reading the log *)

Definition is_backtrace (e : event) : bool :=
  match e with EvBacktrace => true | _ => false end.

Definition is_invoke (e : event) : bool :=
  match e with EvInvoke _ => true | _ => false end.

Definition is_invoke_of (h : terminate_handler) (e : event) : bool :=
  match e with EvInvoke h' => handler_eqb h' h | _ => false end.

Definition is_slot_write (e : event) : bool :=
  match e with EvSetTerminate _ => true | _ => false end.

Definition is_previous_write (e : event) : bool :=
  match e with EvStorePrevious _ => true | _ => false end.

Definition count (f : event -> bool) (tr : list event) : nat :=
  length (filter f tr).

(** The state after the reporter's call. *)
Definition reported (w : world) (p : process) : process :=
  with_host (snd (reporter w (host_of p))) p.

(** The chaining step hands control back to the body: either it is
    skipped, or the saved handler is a host function whose call returns. *)
Definition chain_comes_back (w : world) (p : process) : Prop :=
  match s_previous_handler p with
  | nullptr => True
  | addr_custom => False
  | foreign n => fst (foreign_handler w n (host_of (reported w p))) = Returns
  end.

(** The logs in which every activation reports first, then chains, then
    aborts, each step only if the one before came back: a log cut by the
    nesting bound; the reporter alone; reporter, then [abort()]; reporter,
    then a host handler, then [abort()] if that handler returned;
    reporter, then the handler itself, whose own log follows (it never
    comes back, so nothing follows it). *)
Inductive in_order : list event -> Prop :=
| order_cut : in_order []
| order_report : in_order [EvBacktrace]
| order_report_abort : in_order [EvBacktrace; EvAbort]
| order_report_chain (n : nat) : in_order [EvBacktrace; EvInvoke (foreign n)]
| order_report_chain_abort (n : nat) :
    in_order [EvBacktrace; EvInvoke (foreign n); EvAbort]
| order_nested (inner : list event) :
    in_order inner -> in_order (EvBacktrace :: EvInvoke addr_custom :: inner).

(* ------------------------------------------------------------------ *)
(** ** Worlds and states used in examples *)

(** Collaborators that return, that end the process, that raise. *)
Definition returning : host -> outcome * host := fun hs => (Returns, hs).
Definition stopping : host -> outcome * host := fun hs => (Stops, hs).
Definition throwing : host -> outcome * host := fun hs => (Throws, hs).

(** A world whose reporter returns and whose host handlers end the
    process, as a terminate handler is meant to. *)
Definition calm_world : world := mkWorld returning (fun _ => stopping).

(** A world whose reporter returns and whose host handlers return. *)
Definition returning_world : world := mkWorld returning (fun _ => returning).

(** A world whose reporter raises. *)
Definition failing_reporter_world : world := mkWorld throwing (fun _ => stopping).

(** The opt-out flag: [getenv("GGML_NO_BACKTRACE")] is not null. *)
Definition opted_out (p : process) : bool :=
  match lookup_env "GGML_NO_BACKTRACE" (environ p) with
  | Some _ => true
  | None => false
  end.

(** A first instance installed over the host's [foreign 7]; then a second
    instance constructed while the first is still installed. *)
Definition once_installed : process :=
  final (GgmlTerminateHandler_ctor (at_load [] (foreign 7))).

Definition twice_constructed : process :=
  final (GgmlTerminateHandler_ctor once_installed).

(** The opt-out, as the specification words it: with the variable set,
    construction followed by destruction leaves the cell as it was. *)
Definition opt_out_is_noop_at (p : process) : Prop :=
  opted_out p = true ->
  terminate_slot (final (GgmlTerminateHandler_ctor p)) = terminate_slot p /\
  terminate_slot
    (final (GgmlTerminateHandler_dtor (final (GgmlTerminateHandler_ctor p))))
  = terminate_slot p /\
  s_previous_handler (final (GgmlTerminateHandler_ctor p)) = s_previous_handler p.

(** A process in which a first instance installed the handler over the
    host's [foreign 7] and the host then set the variable. *)
Definition installed_then_opted_out : process :=
  setenv "GGML_NO_BACKTRACE" "1"
         (final (GgmlTerminateHandler_ctor (at_load [] (foreign 7)))).

(* ------------------------------------------------------------------ *)
(** ** The static instance and the library's lifetime *)

(** Loading the library: the static member is initialised to [nullptr]
    (line 65), then [g_ggml_terminate_handler_instance] is constructed
    (line 69). *)
Definition library_load : M unit :=
  fun p => GgmlTerminateHandler_ctor (at_load (environ p) (terminate_slot p)).

(** Unloading the library destroys [g_ggml_terminate_handler_instance]. *)
Definition library_unload : M unit := GgmlTerminateHandler_dtor.

(** One load followed by one unload. *)
Definition load_unload (p : process) : process :=
  final (library_unload (final (library_load p))).

(** The states a process goes through when loads and unloads of the
    library alternate, starting unloaded with the handler cell at [v0];
    the flag says whether the library is loaded.  The host may change the
    environment at any time and the handler cell at any time, except that
    it does not put the address of the library's handler into the cell
    while the library is not loaded. *)
Inductive reachable (e0 : environment) (v0 : terminate_handler) :
  bool -> process -> Prop :=
| reach_start : reachable e0 v0 false (at_load e0 v0)
| reach_load (p : process) :
    reachable e0 v0 false p -> reachable e0 v0 true (final (library_load p))
| reach_unload (p : process) :
    reachable e0 v0 true p -> reachable e0 v0 false (final (library_unload p))
| reach_set_terminate (loaded : bool) (p : process) (h : terminate_handler) :
    (loaded = false -> h <> addr_custom) ->
    reachable e0 v0 loaded p -> reachable e0 v0 loaded (other_party_sets h p)
| reach_setenv (loaded : bool) (p : process) (name value : string) :
    reachable e0 v0 loaded p -> reachable e0 v0 loaded (setenv name value p).


(** A world whose reporter returns and whose host handlers raise. *)
Definition throwing_handler_world : world := mkWorld returning (fun _ => throwing).

(** A failure is raised inside one activation of the handler: by the
    reporter, or, once the reporter has returned, by a saved handler of
    the host. *)
Definition failure_raised (w : world) (p : process) : Prop :=
  fst (reporter w (host_of p)) = Throws \/
  (fst (reporter w (host_of p)) = Returns /\
   exists n, s_previous_handler p = foreign n /\
             fst (foreign_handler w n (host_of (reported w p))) = Throws).

(** The never-returns guarantee, as the specification words it: every
    run of the handler ends with the process terminated, control never
    coming back to the caller in any way. *)
Definition forces_termination (w : world) (p : process) : Prop :=
  forall k, res (custom_terminate_handler w (S k) p) = NoReturn.

(* ------------------------------------------------------------------ *)
(** ** Sanity checks of the embedding *)

Example ctor_fresh :
  final (GgmlTerminateHandler_ctor (at_load [] (foreign 1)))
  = mkProcess [] addr_custom (foreign 1).
Proof. reflexivity. Qed.

Example body_fresh :
  trace (custom_terminate_handler calm_world 1 (mkProcess [] addr_custom (foreign 1)))
  = [EvBacktrace; EvInvoke (foreign 1)].
Proof. reflexivity. Qed.

Example second_construction :
  final (GgmlTerminateHandler_ctor
           (final (GgmlTerminateHandler_ctor (at_load [] (foreign 1)))))
  = mkProcess [] addr_custom addr_custom.
Proof. reflexivity. Qed.

(* ------------------------------------------------------------------ *)
(** ** Pointer comparison *)

Lemma handler_eqb_eq (a b : terminate_handler) :
  handler_eqb a b = true <-> a = b.
Proof.
  destruct a as [| |i], b as [| |j]; simpl; split; intro H;
    try reflexivity; try discriminate.
  - apply Nat.eqb_eq in H. now subst.
  - injection H as ->. apply Nat.eqb_refl.
Qed.

Lemma handler_eqb_refl (a : terminate_handler) : handler_eqb a a = true.
Proof. now apply handler_eqb_eq. Qed.

Lemma handler_eqb_neq (a b : terminate_handler) :
  a <> b -> handler_eqb a b = false.
Proof.
  intro H. destruct (handler_eqb a b) eqn:E; [|reflexivity].
  apply handler_eqb_eq in E. contradiction.
Qed.

(* ------------------------------------------------------------------ *)
(** ** What the constructor and the destructor do, case by case *)

(** Line 21-23: the variable is set, the constructor returns at once. *)
Lemma ctor_opted_out (p : process) :
  opted_out p = true ->
  GgmlTerminateHandler_ctor p = mkRun [] (Done tt) p.
Proof.
  unfold opted_out, GgmlTerminateHandler_ctor. cbn. unfold M_bind. cbn.
  destruct (lookup_env _ _); [reflexivity | discriminate].
Qed.

(** Lines 26-35, the handler cell holds something else: save it, install. *)
Lemma ctor_installs (p : process) :
  opted_out p = false ->
  terminate_slot p <> addr_custom ->
  GgmlTerminateHandler_ctor p =
    mkRun [EvStorePrevious (terminate_slot p); EvSetTerminate addr_custom]
          (Done tt)
          (mkProcess (environ p) addr_custom (terminate_slot p)).
Proof.
  unfold opted_out, GgmlTerminateHandler_ctor. cbn. unfold M_bind. cbn.
  destruct (lookup_env _ _); [discriminate|]. intros _ Hs. cbn.
  rewrite (handler_eqb_neq Hs). reflexivity.
Qed.

(** Lines 26-33, the handler cell already holds the class's handler: the
    store of line 26 has happened when line 31 returns. *)
Lemma ctor_already_installed (p : process) :
  opted_out p = false ->
  terminate_slot p = addr_custom ->
  GgmlTerminateHandler_ctor p =
    mkRun [EvStorePrevious addr_custom] (Done tt)
          (mkProcess (environ p) addr_custom addr_custom).
Proof.
  unfold opted_out, GgmlTerminateHandler_ctor. cbn. unfold M_bind. cbn.
  destruct (lookup_env _ _); [discriminate|]. intros _ Hs. cbn.
  rewrite Hs. reflexivity.
Qed.

(** Lines 42-44, the guard holds. *)
Lemma dtor_restores (p : process) :
  terminate_slot p = addr_custom ->
  GgmlTerminateHandler_dtor p =
    mkRun [EvSetTerminate (s_previous_handler p)] (Done tt)
          (mkProcess (environ p) (s_previous_handler p) (s_previous_handler p)).
Proof.
  intro Hs. unfold GgmlTerminateHandler_dtor. cbn. unfold M_bind. cbn.
  rewrite Hs. reflexivity.
Qed.

(** Lines 42-44, the guard fails. *)
Lemma dtor_skips (p : process) :
  terminate_slot p <> addr_custom ->
  GgmlTerminateHandler_dtor p = mkRun [] (Done tt) p.
Proof.
  intro Hs. unfold GgmlTerminateHandler_dtor. cbn. unfold M_bind. cbn.
  rewrite (handler_eqb_neq Hs). reflexivity.
Qed.

(** Whatever the environment says, after a construction that was not
    opted out the cell holds the class's handler and the static member
    holds what the cell held before. *)
Lemma ctor_not_opted_out (p : process) :
  opted_out p = false ->
  final (GgmlTerminateHandler_ctor p)
  = mkProcess (environ p) addr_custom (terminate_slot p).
Proof.
  intro Ho.
  destruct (handler_eqb (terminate_slot p) addr_custom) eqn:E.
  - apply handler_eqb_eq in E. rewrite (ctor_already_installed p Ho E).
    cbn. now rewrite E.
  - rewrite ctor_installs; [reflexivity | assumption |].
    intro H. rewrite H in E. discriminate.
Qed.

(* ------------------------------------------------------------------ *)
(** ** Install, uninstall *)

(** C3 (restore correctness).  For every value of the handler cell before
    the construction, with the opt-out variable unset: the construction
    leaves the class's handler in the cell, and a destruction that finds
    the class's handler still there puts the earlier value back.  The
    second part allows anything to happen between the two as long as the
    destructor finds the cell holding the class's handler and the static
    member as the constructor left it. *)
Theorem restore_correctness (p : process) :
  opted_out p = false ->
  let installed := final (GgmlTerminateHandler_ctor p) in
  terminate_slot installed = addr_custom /\
  terminate_slot (final (GgmlTerminateHandler_dtor installed)) = terminate_slot p /\
  forall later : process,
    terminate_slot later = addr_custom ->
    s_previous_handler later = s_previous_handler installed ->
    terminate_slot (final (GgmlTerminateHandler_dtor later)) = terminate_slot p.
Proof.
  intros Ho installed.
  assert (Hi : installed = mkProcess (environ p) addr_custom (terminate_slot p))
    by (apply ctor_not_opted_out; exact Ho).
  rewrite Hi. cbn [terminate_slot s_previous_handler].
  split; [reflexivity|]. split.
  - rewrite dtor_restores by reflexivity. reflexivity.
  - intros later Hs Hprev. rewrite (dtor_restores later Hs). cbn. exact Hprev.
Qed.

Lemma restore_correctness_witness :
  terminate_slot
    (final (GgmlTerminateHandler_dtor
              (final (GgmlTerminateHandler_ctor (at_load [] (foreign 7))))))
  = foreign 7.
Proof.
  exact (proj1 (proj2 (restore_correctness (at_load [] (foreign 7)) eq_refl))).
Defined.

(** C4 (clobber avoidance).  Construct, let another party put a handler
    [B] other than the class's own into the cell, destroy: the destructor
    writes nothing, and the cell still holds [B]. *)
Theorem clobber_avoidance (p : process) (B : terminate_handler) :
  B <> addr_custom ->
  let replaced := other_party_sets B (final (GgmlTerminateHandler_ctor p)) in
  let r := GgmlTerminateHandler_dtor replaced in
  terminate_slot (final r) = B /\
  count is_slot_write (trace r) = 0 /\
  final r = replaced.
Proof.
  intros HB replaced r. subst r.
  rewrite dtor_skips by exact HB. cbn. repeat split; reflexivity.
Qed.

Lemma clobber_avoidance_witness :
  terminate_slot
    (final (GgmlTerminateHandler_dtor
              (other_party_sets (foreign 9)
                 (final (GgmlTerminateHandler_ctor (at_load [] (foreign 7)))))))
  = foreign 9.
Proof.
  refine (proj1 (clobber_avoidance (at_load [] (foreign 7)) (B := foreign 9) _)).
  discriminate.
Defined.

(** C5, as stated, fails: the destructor does not look at the variable.
    Constructing and destroying an opted-out instance in a process whose
    cell holds the class's handler replaces the cell's value. *)
Lemma opt_out_counterexample :
  opted_out installed_then_opted_out = true /\
  terminate_slot installed_then_opted_out = addr_custom /\
  terminate_slot
    (final (GgmlTerminateHandler_dtor
              (final (GgmlTerminateHandler_ctor installed_then_opted_out))))
  = foreign 7 /\
  ~ opt_out_is_noop_at installed_then_opted_out.
Proof.
  repeat split.
  intro H. destruct (H eq_refl) as (_ & H2 & _). discriminate H2.
Qed.

(** C5, amended.  With the variable set (to any value, the empty string
    included) the constructor does nothing: no write to the cell, nothing
    recorded in the static member.  The destructor never writes the static
    member; it leaves the cell alone exactly when the cell does not hold
    the class's handler, and otherwise copies the static member into it. *)
Theorem opt_out_skips_install (p : process) :
  opted_out p = true ->
  GgmlTerminateHandler_ctor p = mkRun [] (Done tt) p /\
  s_previous_handler (final (GgmlTerminateHandler_dtor p)) = s_previous_handler p /\
  (terminate_slot p <> addr_custom ->
   GgmlTerminateHandler_dtor (final (GgmlTerminateHandler_ctor p))
   = mkRun [] (Done tt) p) /\
  (terminate_slot p = addr_custom ->
   terminate_slot
     (final (GgmlTerminateHandler_dtor (final (GgmlTerminateHandler_ctor p))))
   = s_previous_handler p).
Proof.
  intro Ho. rewrite (ctor_opted_out p Ho). cbn [final].
  split; [reflexivity|]. split; [|split].
  - destruct (handler_eqb (terminate_slot p) addr_custom) eqn:E.
    + apply handler_eqb_eq in E. rewrite (dtor_restores p E). reflexivity.
    + rewrite dtor_skips; [reflexivity|]. intro H. rewrite H in E. discriminate.
  - intro Hs. apply dtor_skips. exact Hs.
  - intro Hs. rewrite (dtor_restores p Hs). reflexivity.
Qed.

Lemma opt_out_skips_install_witness :
  GgmlTerminateHandler_ctor (at_load [("GGML_NO_BACKTRACE", "")] (foreign 7))
  = mkRun [] (Done tt) (at_load [("GGML_NO_BACKTRACE", "")] (foreign 7)) /\
  GgmlTerminateHandler_dtor
    (final (GgmlTerminateHandler_ctor
              (at_load [("GGML_NO_BACKTRACE", "")] (foreign 7))))
  = mkRun [] (Done tt) (at_load [("GGML_NO_BACKTRACE", "")] (foreign 7)).
Proof.
  pose proof (opt_out_skips_install (at_load [("GGML_NO_BACKTRACE", "")] (foreign 7)) eq_refl)
    as (H1 & _ & H3 & _).
  split; [exact H1 | apply H3; discriminate].
Defined.

(* ------------------------------------------------------------------ *)
(** ** One activation of the handler *)

Section Activation.

Variable w : world.

(** The three statements of the body, by cases on how the reporter's call
    ends, on the pointer in the static member and on how that call ends. *)
Lemma body_cases (self : M unit) (p : process) :
  custom_terminate_handler_body w self p =
  match fst (reporter w (host_of p)) with
  | Returns =>
      match s_previous_handler p with
      | nullptr => mkRun [EvBacktrace; EvAbort] NoReturn (reported w p)
      | addr_custom =>
          let inner := self (reported w p) in
          mkRun (EvBacktrace :: EvInvoke addr_custom :: trace inner ++
                   match res inner with Done _ => [EvAbort] | _ => [] end)
                (match res inner with Done _ => NoReturn | other => other end)
                (final inner)
      | foreign n =>
          let called := foreign_handler w n (host_of (reported w p)) in
          mkRun (EvBacktrace :: EvInvoke (foreign n) ::
                   match fst called with Returns => [EvAbort] | _ => [] end)
                (match fst called with Throws => Raised | _ => NoReturn end)
                (with_host (snd called) (reported w p))
      end
  | Stops => mkRun [EvBacktrace] NoReturn (reported w p)
  | Throws => mkRun [EvBacktrace] Raised (reported w p)
  end.
Proof.
  cbn zeta. unfold custom_terminate_handler_body, reported.
  cbn. unfold M_bind. cbn.
  destruct (reporter w (host_of p)) as [[] hs]; cbn; try reflexivity.
  destruct p as [e s [| |n]]; cbn; try reflexivity.
  - destruct (self _) as [t [] f]; cbn; rewrite ?app_nil_r; reflexivity.
  - destruct (foreign_handler w n _) as [[] hs']; reflexivity.
Qed.

Lemma reported_previous (p : process) :
  s_previous_handler (reported w p) = s_previous_handler p.
Proof. reflexivity. Qed.

(** The body ends in [abort()]: whatever [self] does, no run of the body
    comes back to the caller. *)
Lemma body_not_done (self : M unit) (p : process) (u : unit) :
  res (custom_terminate_handler_body w self p) <> Done u.
Proof.
  rewrite body_cases.
  destruct (fst (reporter w (host_of p))); cbn; try discriminate.
  destruct (s_previous_handler p); cbn; try discriminate.
  - destruct (res (self (reported w p))); discriminate.
  - destruct (fst (foreign_handler w id (host_of (reported w p)))); discriminate.
Qed.

Lemma handler_not_done (fuel : nat) (p : process) (u : unit) :
  res (custom_terminate_handler w fuel p) <> Done u.
Proof.
  destruct fuel as [|k]; cbn; [discriminate | apply body_not_done].
Qed.

(** The handler reads the static member and never assigns it, nor does it
    call [std::set_terminate]. *)
Lemma handler_frame (fuel : nat) :
  forall p : process,
    let r := custom_terminate_handler w fuel p in
    s_previous_handler (final r) = s_previous_handler p /\
    count is_previous_write (trace r) = 0 /\
    count is_slot_write (trace r) = 0.
Proof.
  induction fuel as [|k IH]; intro p; cbn zeta.
  - cbn. auto.
  - cbn [custom_terminate_handler]. rewrite body_cases.
    destruct (fst (reporter w (host_of p))); cbn; auto.
    destruct (s_previous_handler p) eqn:Hp; cbn zeta; cbn [trace final res]; auto.
    + specialize (IH (reported w p)). cbn zeta in IH.
      destruct IH as (IH1 & IH2 & IH3). rewrite reported_previous in IH1.
      rewrite IH1. unfold count in *. cbn [filter is_previous_write is_slot_write].
      rewrite !filter_app, !length_app, IH2, IH3.
      split; [exact Hp|].
      destruct (res (custom_terminate_handler w k (reported w p))); cbn; auto.
    + destruct (fst (foreign_handler w id (host_of (reported w p)))); cbn; auto.
Qed.

(** When the static member holds the handler's own address and the
    reporter returns, each activation starts the next one: for every
    nesting bound the run is cut at the bound, with one backtrace and one
    call through the pointer per level, and [abort()] is never reached. *)
Lemma self_chain_diverges (fuel : nat) :
  (forall hs, fst (reporter w hs) = Returns) ->
  forall p : process,
    s_previous_handler p = addr_custom ->
    let r := custom_terminate_handler w fuel p in
    res r = OutOfFuel /\
    count is_backtrace (trace r) = fuel /\
    count (is_invoke_of addr_custom) (trace r) = fuel /\
    ~ In EvAbort (trace r).
Proof.
  intros Hrep. induction fuel as [|k IH]; intros p Hp; cbn zeta.
  - cbn. repeat split; auto.
  - cbn [custom_terminate_handler]. rewrite body_cases, Hrep, Hp. cbn zeta.
    specialize (IH (reported w p) Hp). cbn zeta in IH.
    destruct IH as (IH1 & IH2 & IH3 & IH4).
    cbn [trace res]. rewrite IH1, app_nil_r. unfold count in *.
    cbn. rewrite IH2, IH3. repeat split; try reflexivity.
    intros [H|[H|H]]; [discriminate | discriminate | exact (IH4 H)].
Qed.

(** The cases of [body_cases] for a run of the handler itself. *)
Lemma handler_reporter_throws (k : nat) (p : process) :
  fst (reporter w (host_of p)) = Throws ->
  custom_terminate_handler w (S k) p = mkRun [EvBacktrace] Raised (reported w p).
Proof. intro H. cbn [custom_terminate_handler]. now rewrite body_cases, H. Qed.

Lemma handler_reporter_stops (k : nat) (p : process) :
  fst (reporter w (host_of p)) = Stops ->
  custom_terminate_handler w (S k) p = mkRun [EvBacktrace] NoReturn (reported w p).
Proof. intro H. cbn [custom_terminate_handler]. now rewrite body_cases, H. Qed.

Lemma handler_null (k : nat) (p : process) :
  fst (reporter w (host_of p)) = Returns ->
  s_previous_handler p = nullptr ->
  custom_terminate_handler w (S k) p
  = mkRun [EvBacktrace; EvAbort] NoReturn (reported w p).
Proof.
  intros H Hp. cbn [custom_terminate_handler]. now rewrite body_cases, H, Hp.
Qed.

Lemma handler_foreign (k : nat) (p : process) (n : nat) :
  fst (reporter w (host_of p)) = Returns ->
  s_previous_handler p = foreign n ->
  let called := foreign_handler w n (host_of (reported w p)) in
  custom_terminate_handler w (S k) p
  = mkRun (EvBacktrace :: EvInvoke (foreign n) ::
             match fst called with Returns => [EvAbort] | _ => [] end)
          (match fst called with Throws => Raised | _ => NoReturn end)
          (with_host (snd called) (reported w p)).
Proof.
  intros H Hp. cbn [custom_terminate_handler]. now rewrite body_cases, H, Hp.
Qed.

Lemma handler_self (k : nat) (p : process) :
  fst (reporter w (host_of p)) = Returns ->
  s_previous_handler p = addr_custom ->
  let inner := custom_terminate_handler w k (reported w p) in
  custom_terminate_handler w (S k) p
  = mkRun (EvBacktrace :: EvInvoke addr_custom :: trace inner)
          (res inner) (final inner).
Proof.
  intros H Hp. cbn [custom_terminate_handler]. rewrite body_cases, H, Hp.
  cbn zeta. fold (custom_terminate_handler w k).
  pose proof (handler_not_done k (reported w p)) as Hnd.
  destruct (res (custom_terminate_handler w k (reported w p))) eqn:E;
    rewrite ?app_nil_r; try reflexivity.
  exfalso. exact (Hnd a eq_refl).
Qed.

End Activation.

(* ------------------------------------------------------------------ *)
(** ** The handler: termination, chaining, order *)

(** C1, as stated, fails: the body catches nothing.  Right after an
    ordinary installation over a host handler, if that handler raises
    when it is called at line 53, the failure leaves the handler and
    reaches its caller; [abort()] is not executed. *)
Lemma forced_termination_counterexample :
  s_previous_handler once_installed = foreign 7 /\
  res (custom_terminate_handler throwing_handler_world 1 once_installed) = Raised /\
  ~ In EvAbort
      (trace (custom_terminate_handler throwing_handler_world 1 once_installed)) /\
  ~ forces_termination throwing_handler_world once_installed.
Proof.
  split; [reflexivity|]. split; [reflexivity|]. split.
  - cbn. intros [H|[H|[]]]; discriminate.
  - intro H. specialize (H 0). discriminate H.
Qed.

(** C1, amended.  For every saved handler other than the handler's own
    address, every world and every nesting bound: a run of the handler
    never hands control back by returning; it either never comes back
    or lets a failure through, and it lets a failure through exactly when
    the reporter or the saved handler raised one.  [abort()] is executed
    exactly when the reporter returned and the chaining step came back
    (no saved handler, or one that returned); it is then the last action
    and control never comes back. *)
Theorem handler_forces_termination (w : world) (p : process) (k : nat) :
  s_previous_handler p <> addr_custom ->
  (res (custom_terminate_handler w (S k) p) = NoReturn \/
   res (custom_terminate_handler w (S k) p) = Raised) /\
  (res (custom_terminate_handler w (S k) p) = Raised <-> failure_raised w p) /\
  (In EvAbort (trace (custom_terminate_handler w (S k) p))
   <-> fst (reporter w (host_of p)) = Returns /\ chain_comes_back w p) /\
  (In EvAbort (trace (custom_terminate_handler w (S k) p)) ->
   exists before,
     trace (custom_terminate_handler w (S k) p) = before ++ [EvAbort] /\
     ~ In EvAbort before /\
     res (custom_terminate_handler w (S k) p) = NoReturn).
Proof.
  intro Hp. unfold failure_raised, chain_comes_back.
  destruct (fst (reporter w (host_of p))) eqn:Hr.
  - destruct (s_previous_handler p) as [| |n] eqn:Hs; [|contradiction|].
    + (* no saved handler *)
      rewrite (handler_null w k p Hr Hs). cbn. split; [left; reflexivity|].
      split; [|split].
      * split; [discriminate|].
        intros [H|[_ [m [H _]]]]; discriminate.
      * split; [auto | intros _; auto].
      * intros _. exists [EvBacktrace]. repeat split.
        intros [H|[]]; discriminate.
    + (* a saved handler of the host *)
      rewrite (handler_foreign w k p Hr Hs). cbn zeta.
      destruct (fst (foreign_handler w n (host_of (reported w p)))) eqn:Hf; cbn.
      * split; [left; reflexivity|]. split; [|split].
        -- split; [discriminate|].
           intros [H|[_ [m [Hm H]]]]; [discriminate|].
           injection Hm as <-. rewrite Hf in H. discriminate.
        -- split; auto.
        -- intros _. exists [EvBacktrace; EvInvoke (foreign n)]. repeat split.
           intros [H|[H|[]]]; discriminate.
      * split; [left; reflexivity|]. split; [|split].
        -- split; [discriminate|].
           intros [H|[_ [m [Hm H]]]]; [discriminate|].
           injection Hm as <-. rewrite Hf in H. discriminate.
        -- split; [|intros [_ H]; discriminate].
           intros [H|[H|[]]]; discriminate.
        -- intros [H|[H|[]]]; discriminate.
      * split; [right; reflexivity|]. split; [|split].
        -- split; [|reflexivity]. intros _. right. split; [reflexivity|].
           exists n. split; [reflexivity | exact Hf].
        -- split; [|intros [_ H]; discriminate].
           intros [H|[H|[]]]; discriminate.
        -- intros [H|[H|[]]]; discriminate.
  - (* the reporter never comes back *)
    rewrite (handler_reporter_stops w k p Hr). cbn.
    split; [left; reflexivity|]. split; [|split].
    + split; [discriminate|]. intros [H|[H _]]; discriminate.
    + split; [|intros [H _]; discriminate]. intros [H|[]]; discriminate.
    + intros [H|[]]; discriminate.
  - (* the reporter raises *)
    rewrite (handler_reporter_throws w k p Hr). cbn.
    split; [right; reflexivity|]. split; [|split].
    + split; [intros _; left; reflexivity | reflexivity].
    + split; [|intros [H _]; discriminate]. intros [H|[]]; discriminate.
    + intros [H|[]]; discriminate.
Qed.

Lemma handler_forces_termination_witness :
  res (custom_terminate_handler returning_world 1 once_installed) = NoReturn /\
  In EvAbort (trace (custom_terminate_handler returning_world 1 once_installed)).
Proof.
  assert (Hp : s_previous_handler once_installed <> addr_custom) by discriminate.
  destruct (@handler_forces_termination returning_world once_installed 0 Hp)
    as (_ & _ & H3 & H4).
  assert (Ha : In EvAbort
                 (trace (custom_terminate_handler returning_world 1 once_installed)))
    by (apply H3; split; reflexivity).
  split; [|exact Ha].
  destruct (H4 Ha) as (before & _ & _ & Hres). exact Hres.
Defined.

(** C2 (idempotent install), evaluated where the code breaks it.  The
    second construction leaves the cell alone but has already assigned the
    static member at line 26 when the check of line 31 returns: the saved
    handler [foreign 7] is replaced by the handler's own address.  A run of
    the handler in that state prints one backtrace per nesting level and
    never completes, and the destructor puts the handler's own address
    back into the cell. *)
Theorem second_construction_overwrites_saved_hook :
  opted_out once_installed = false /\
  terminate_slot once_installed = addr_custom /\
  s_previous_handler once_installed = foreign 7 /\
  terminate_slot twice_constructed = addr_custom /\
  s_previous_handler twice_constructed = addr_custom /\
  trace (GgmlTerminateHandler_ctor once_installed) = [EvStorePrevious addr_custom] /\
  (forall fuel,
     res (custom_terminate_handler calm_world fuel twice_constructed) = OutOfFuel /\
     count is_backtrace
       (trace (custom_terminate_handler calm_world fuel twice_constructed)) = fuel) /\
  terminate_slot (final (GgmlTerminateHandler_dtor twice_constructed)) = addr_custom.
Proof.
  repeat match goal with |- _ /\ _ => split end; try reflexivity.
  intro fuel.
  destruct (@self_chain_diverges calm_world fuel (fun _ => eq_refl)
              twice_constructed eq_refl) as (H1 & H2 & _).
  split; assumption.
Qed.

(** Where chaining behaves as C6 says: a saved handler of the host is
    called exactly once in a run, right after the backtrace. *)
Lemma foreign_previous_invoked_once (w : world) (p : process) (n k : nat) :
  fst (reporter w (host_of p)) = Returns ->
  s_previous_handler p = foreign n ->
  count is_invoke (trace (custom_terminate_handler w (S k) p)) = 1 /\
  count (is_invoke_of (foreign n)) (trace (custom_terminate_handler w (S k) p)) = 1.
Proof.
  intros Hr Hp. rewrite (handler_foreign w k p Hr Hp). cbn zeta. unfold count.
  cbn. rewrite Nat.eqb_refl.
  destruct (fst (foreign_handler w n (host_of (reported w p)))); cbn; auto.
Qed.

(** C6 (chain once), evaluated where the code breaks it.  After the second
    construction the saved handler is present (not null), and a run of the
    handler calls through it once per nesting level: twice within two
    levels, and so on without bound. *)
Theorem chain_once_broken_after_second_construction :
  opted_out once_installed = false /\
  is_set (s_previous_handler twice_constructed) = true /\
  count (is_invoke_of (s_previous_handler twice_constructed))
        (trace (custom_terminate_handler calm_world 2 twice_constructed)) = 2 /\
  (forall fuel,
     count (is_invoke_of (s_previous_handler twice_constructed))
           (trace (custom_terminate_handler calm_world fuel twice_constructed))
     = fuel).
Proof.
  repeat match goal with |- _ /\ _ => split end; try reflexivity.
  intro fuel.
  destruct (@self_chain_diverges calm_world fuel (fun _ => eq_refl)
              twice_constructed eq_refl) as (_ & _ & H3 & _).
  exact H3.
Qed.

Lemma handler_in_order (w : world) (fuel : nat) :
  forall p, in_order (trace (custom_terminate_handler w fuel p)).
Proof.
  induction fuel as [|k IH]; intro p.
  - constructor.
  - destruct (fst (reporter w (host_of p))) eqn:Hr.
    + destruct (s_previous_handler p) as [| |n] eqn:Hp.
      * rewrite (handler_null w k p Hr Hp). constructor.
      * rewrite (handler_self w k p Hr Hp). cbn. constructor. apply IH.
      * rewrite (handler_foreign w k p Hr Hp). cbn.
        destruct (fst (foreign_handler w n (host_of (reported w p))));
          constructor.
    + rewrite (handler_reporter_stops w k p Hr). constructor.
    + rewrite (handler_reporter_throws w k p Hr). constructor.
Qed.

(** C7 (order of the steps).  In every run of the handler the log is in
    order, and its first entry is the reporter's call.  When the reporter
    returns, the second entry is the call through the saved handler if
    there is one and [abort()] if there is none; when the saved handler is
    a host function that returns, [abort()] is third and last. *)
Theorem steps_in_order (w : world) (p : process) (k : nat) :
  let r := custom_terminate_handler w (S k) p in
  in_order (trace r) /\
  hd_error (trace r) = Some EvBacktrace /\
  (fst (reporter w (host_of p)) = Returns ->
   nth_error (trace r) 1 =
     Some (if is_set (s_previous_handler p)
           then EvInvoke (s_previous_handler p) else EvAbort)) /\
  (fst (reporter w (host_of p)) = Returns ->
   forall n, s_previous_handler p = foreign n ->
   fst (foreign_handler w n (host_of (reported w p))) = Returns ->
   trace r = [EvBacktrace; EvInvoke (foreign n); EvAbort]).
Proof.
  cbn zeta. split; [apply handler_in_order|]. split; [|split].
  - cbn [custom_terminate_handler]. rewrite body_cases.
    destruct (fst (reporter w (host_of p))); try reflexivity.
    destruct (s_previous_handler p); reflexivity.
  - intro Hr. destruct (s_previous_handler p) as [| |n] eqn:Hp.
    + now rewrite (handler_null w k p Hr Hp).
    + now rewrite (handler_self w k p Hr Hp).
    + now rewrite (handler_foreign w k p Hr Hp).
  - intros Hr n Hp Hf. rewrite (handler_foreign w k p Hr Hp). cbn zeta.
    now rewrite Hf.
Qed.

Lemma steps_in_order_witness :
  trace (custom_terminate_handler returning_world 1
           (mkProcess [] addr_custom (foreign 7)))
  = [EvBacktrace; EvInvoke (foreign 7); EvAbort].
Proof.
  exact (proj2 (proj2 (proj2
           (steps_in_order returning_world
              (mkProcess [] addr_custom (foreign 7)) 0)))
           eq_refl 7 eq_refl eq_refl).
Defined.

(** C8, as stated, fails: the body has no handler around the reporter's
    call.  With a reporter that raises and a saved host handler, the run
    ends with the failure leaving the body; the saved handler is not
    called and [abort()] is not reached. *)
Lemma reporter_failure_counterexample :
  custom_terminate_handler failing_reporter_world 1
    (mkProcess [] addr_custom (foreign 7))
  = mkRun [EvBacktrace] Raised (mkProcess [] addr_custom (foreign 7)) /\
  count is_invoke
    (trace (custom_terminate_handler failing_reporter_world 1
              (mkProcess [] addr_custom (foreign 7)))) = 0 /\
  ~ In EvAbort
    (trace (custom_terminate_handler failing_reporter_world 1
              (mkProcess [] addr_custom (foreign 7)))).
Proof.
  repeat split. cbn. intros [H|[]]. discriminate.
Qed.

(** C8, amended.  A failure raised by the reporter is not handled in the
    body: it leaves the body at once, before the saved handler or
    [abort()].  Only when the reporter returns does the body go on to the
    saved handler (if one is set) and, if that returns or is absent, to
    [abort()]. *)
Theorem reporter_failure_propagates (w : world) (p : process) (k : nat) :
  (fst (reporter w (host_of p)) = Throws ->
   custom_terminate_handler w (S k) p
   = mkRun [EvBacktrace] Raised (reported w p)) /\
  (fst (reporter w (host_of p)) = Returns ->
   (is_set (s_previous_handler p) = true ->
    In (EvInvoke (s_previous_handler p))
       (trace (custom_terminate_handler w (S k) p))) /\
   (chain_comes_back w p ->
    In EvAbort (trace (custom_terminate_handler w (S k) p)))).
Proof.
  split.
  - apply handler_reporter_throws.
  - intro Hr. split.
    + intro Hset. destruct (s_previous_handler p) as [| |n] eqn:Hp.
      * discriminate.
      * rewrite (handler_self w k p Hr Hp). cbn. auto.
      * rewrite (handler_foreign w k p Hr Hp). cbn. auto.
    + unfold chain_comes_back. intro Hc.
      destruct (s_previous_handler p) as [| |n] eqn:Hp; [|contradiction|].
      * rewrite (handler_null w k p Hr Hp). cbn. auto.
      * rewrite (handler_foreign w k p Hr Hp). cbn zeta. rewrite Hc. cbn. auto.
Qed.

Lemma reporter_failure_propagates_witness :
  custom_terminate_handler failing_reporter_world 3
    (mkProcess [] addr_custom (foreign 7))
  = mkRun [EvBacktrace] Raised (mkProcess [] addr_custom (foreign 7)) /\
  In EvAbort
     (trace (custom_terminate_handler returning_world 3
               (mkProcess [] addr_custom (foreign 7)))).
Proof.
  split.
  - exact (proj1 (reporter_failure_propagates failing_reporter_world
                    (mkProcess [] addr_custom (foreign 7)) 2) eq_refl).
  - exact (proj2 (proj2 (reporter_failure_propagates returning_world
                    (mkProcess [] addr_custom (foreign 7)) 2) eq_refl) eq_refl).
Defined.

(** No run of the handler calls through the null pointer: the test of
    line 52 guards the call of line 53. *)
Lemma handler_never_calls_null (w : world) (fuel : nat) :
  forall p : process,
    ~ In (EvInvoke nullptr) (trace (custom_terminate_handler w fuel p)) /\
    res (custom_terminate_handler w fuel p) <> Undefined.
Proof.
  induction fuel as [|k IH]; intro p.
  - cbn. split; [tauto | discriminate].
  - destruct (fst (reporter w (host_of p))) eqn:Hr.
    + destruct (s_previous_handler p) as [| |n] eqn:Hp.
      * rewrite (handler_null w k p Hr Hp). cbn.
        split; [|discriminate]. intros [H|[H|[]]]; discriminate.
      * rewrite (handler_self w k p Hr Hp). cbn.
        destruct (IH (reported w p)) as [IH1 IH2]. split; [|exact IH2].
        intros [H|[H|H]]; [discriminate | discriminate | exact (IH1 H)].
      * rewrite (handler_foreign w k p Hr Hp). cbn.
        destruct (fst (foreign_handler w n (host_of (reported w p)))); cbn;
          (split; [|discriminate]).
        -- intros [H|[H|[H|[]]]]; discriminate.
        -- intros [H|[H|[]]]; discriminate.
        -- intros [H|[H|[]]]; discriminate.
    + rewrite (handler_reporter_stops w k p Hr). cbn.
      split; [|discriminate]. intros [H|[]]; discriminate.
    + rewrite (handler_reporter_throws w k p Hr). cbn.
      split; [|discriminate]. intros [H|[]]; discriminate.
Qed.

(** C9 (the null sentinel is never called).  When the static member holds
    the null pointer (its initial value, [at_load]), a run of the handler
    contains no call through a pointer at all and does not end in the
    undefined behaviour of a null call; with a reporter that returns, the
    run is complete and is exactly: backtrace, [abort()]. *)
Theorem null_previous_never_invoked (w : world) (p : process) (k : nat) :
  s_previous_handler p = nullptr ->
  let r := custom_terminate_handler w (S k) p in
  count is_invoke (trace r) = 0 /\
  ~ In (EvInvoke nullptr) (trace r) /\
  res r <> Undefined /\
  (fst (reporter w (host_of p)) = Returns ->
   r = mkRun [EvBacktrace; EvAbort] NoReturn (reported w p)).
Proof.
  intros Hp r. subst r.
  destruct (handler_never_calls_null w (S k) p) as [Hn Hu].
  split; [|split; [exact Hn | split; [exact Hu|]]].
  - destruct (fst (reporter w (host_of p))) eqn:Hr.
    + now rewrite (handler_null w k p Hr Hp).
    + now rewrite (handler_reporter_stops w k p Hr).
    + now rewrite (handler_reporter_throws w k p Hr).
  - intro Hr. exact (handler_null w k p Hr Hp).
Qed.

Lemma null_previous_never_invoked_witness :
  custom_terminate_handler calm_world 1 (at_load [] addr_custom)
  = mkRun [EvBacktrace; EvAbort] NoReturn (at_load [] addr_custom).
Proof.
  exact (proj2 (proj2 (proj2 (@null_previous_never_invoked calm_world
                                (at_load [] addr_custom) 0 eq_refl)))
               eq_refl).
Defined.

(** C10 (who writes the saved handler).  The static member is one field of
    the process, not of an instance: constructor and destructor take no
    instance and act on that one field.  The handler (every world, state
    and nesting bound) and the destructor (every state) leave it as it was
    and log no assignment to it; so does an opted-out construction.  A
    construction that is not opted out assigns it exactly once, with the
    value then in the handler cell; a second construction assigns the same
    field again, so the destructor of either instance reads what the
    second stored. *)
Theorem saved_hook_written_only_by_install :
  (forall (w : world) (fuel : nat) (p : process),
     s_previous_handler (final (custom_terminate_handler w fuel p))
     = s_previous_handler p /\
     count is_previous_write (trace (custom_terminate_handler w fuel p)) = 0) /\
  (forall p : process,
     s_previous_handler (final (GgmlTerminateHandler_dtor p))
     = s_previous_handler p /\
     count is_previous_write (trace (GgmlTerminateHandler_dtor p)) = 0) /\
  (forall p : process,
     opted_out p = true ->
     s_previous_handler (final (GgmlTerminateHandler_ctor p))
     = s_previous_handler p /\
     count is_previous_write (trace (GgmlTerminateHandler_ctor p)) = 0) /\
  (forall p : process,
     opted_out p = false ->
     s_previous_handler (final (GgmlTerminateHandler_ctor p))
     = terminate_slot p /\
     filter is_previous_write (trace (GgmlTerminateHandler_ctor p))
     = [EvStorePrevious (terminate_slot p)] /\
     s_previous_handler
       (final (GgmlTerminateHandler_ctor (final (GgmlTerminateHandler_ctor p))))
     = addr_custom).
Proof.
  split; [|split; [|split]].
  - intros w fuel p. destruct (handler_frame w fuel p) as (H1 & H2 & _).
    split; assumption.
  - intro p. destruct (handler_eqb (terminate_slot p) addr_custom) eqn:E.
    + apply handler_eqb_eq in E. rewrite (dtor_restores p E). now cbn.
    + rewrite dtor_skips; [now cbn|]. intro H. rewrite H in E. discriminate.
  - intros p Ho. rewrite (ctor_opted_out p Ho). now cbn.
  - intros p Ho. split; [|split].
    + now rewrite (ctor_not_opted_out p Ho).
    + destruct (handler_eqb (terminate_slot p) addr_custom) eqn:E.
      * apply handler_eqb_eq in E. rewrite (ctor_already_installed p Ho E).
        cbn. now rewrite E.
      * rewrite ctor_installs; [reflexivity | assumption |].
        intro H. rewrite H in E. discriminate.
    + rewrite (ctor_not_opted_out p Ho).
      rewrite ctor_not_opted_out; [reflexivity|].
      unfold opted_out in *. cbn. exact Ho.
Qed.

Lemma saved_hook_written_only_by_install_witness :
  s_previous_handler
    (final (GgmlTerminateHandler_ctor (at_load [("GGML_NO_BACKTRACE", "0")] (foreign 7))))
  = nullptr /\
  filter is_previous_write
    (trace (GgmlTerminateHandler_ctor (at_load [] (foreign 7))))
  = [EvStorePrevious (foreign 7)].
Proof.
  destruct saved_hook_written_only_by_install as (_ & _ & H3 & H4).
  split.
  - exact (proj1 (H3 (at_load [("GGML_NO_BACKTRACE", "0")] (foreign 7)) eq_refl)).
  - exact (proj1 (proj2 (H4 (at_load [] (foreign 7)) eq_refl))).
Defined.

(* ------------------------------------------------------------------ *)
(** ** Further properties of the handler *)

(** X1 (chaining to a host handler).  With a reporter that returns and a
    saved handler that is a host function, a run calls that function
    exactly once; [abort()] is executed exactly when the call returns; the
    run ends with a failure leaving the handler exactly when the call
    raises (there is no [try] around line 53), and otherwise never comes
    back. *)
Theorem host_handler_chain (w : world) (p : process) (n k : nat) :
  fst (reporter w (host_of p)) = Returns ->
  s_previous_handler p = foreign n ->
  let called := fst (foreign_handler w n (host_of (reported w p))) in
  let r := custom_terminate_handler w (S k) p in
  count is_invoke (trace r) = 1 /\
  count (is_invoke_of (foreign n)) (trace r) = 1 /\
  (In EvAbort (trace r) <-> called = Returns) /\
  (res r = Raised <-> called = Throws) /\
  (res r = NoReturn <-> called <> Throws).
Proof.
  intros Hr Hp called r. subst called r.
  rewrite (handler_foreign w k p Hr Hp). cbn zeta. unfold count.
  cbn [trace res filter is_invoke is_invoke_of handler_eqb]. rewrite Nat.eqb_refl.
  destruct (fst (foreign_handler w n (host_of (reported w p)))); cbn.
  - (* the call returns: abort() follows *)
    repeat split; auto; try discriminate.
  - (* the call never comes back *)
    repeat split; auto; try discriminate.
    intros [H|[H|[]]]; discriminate.
  - (* the call raises *)
    repeat split; auto; try discriminate.
    + intros [H|[H|[]]]; discriminate.
    + intro H. exfalso. now apply H.
Qed.

Lemma host_handler_chain_witness :
  res (custom_terminate_handler throwing_handler_world 1
         (mkProcess [] addr_custom (foreign 7))) = Raised /\
  ~ In EvAbort
      (trace (custom_terminate_handler throwing_handler_world 1
                (mkProcess [] addr_custom (foreign 7)))).
Proof.
  destruct (@host_handler_chain throwing_handler_world
              (mkProcess [] addr_custom (foreign 7)) 7 0 eq_refl eq_refl)
    as (_ & _ & H3 & H4 & _).
  split.
  - apply H4. reflexivity.
  - intro H. apply H3 in H. discriminate H.
Defined.




(* ------------------------------------------------------------------ *)
(** ** Further properties of construction and destruction *)

Lemma slot_cases (p : process) :
  terminate_slot p = addr_custom \/ terminate_slot p <> addr_custom.
Proof.
  destruct (terminate_slot p); [right | left | right];
    try reflexivity; discriminate.
Qed.

(** X4 (what the destructor leaves in the cell).  After a destruction the
    handler cell still holds the class's handler exactly when it held it
    before and the saved handler was the class's handler too; in every
    other state the cell is free of it.  Destroying a second time changes
    nothing more. *)
Theorem dtor_clears_handler (p : process) :
  (terminate_slot (final (GgmlTerminateHandler_dtor p)) = addr_custom
   <-> terminate_slot p = addr_custom /\ s_previous_handler p = addr_custom) /\
  final (GgmlTerminateHandler_dtor (final (GgmlTerminateHandler_dtor p)))
  = final (GgmlTerminateHandler_dtor p).
Proof.
  destruct (slot_cases p) as [Hs|Hs].
  - rewrite (dtor_restores p Hs). cbn [final terminate_slot]. split.
    + split; [intro H; split; assumption | intros [_ H]; exact H].
    + destruct (s_previous_handler p) as [| |n] eqn:Hp.
      * rewrite dtor_skips; [reflexivity | discriminate].
      * rewrite dtor_restores; reflexivity.
      * rewrite dtor_skips; [reflexivity | discriminate].
  - rewrite (dtor_skips p Hs). cbn [final]. split.
    + split; [intro H; contradiction | intros [H _]; contradiction].
    + rewrite (dtor_skips p Hs). reflexivity.
Qed.

(** X5 (what construction and destruction do and do not do).  Both always
    return to their caller; neither prints a backtrace, calls a handler or
    aborts; neither touches the environment.  The constructor writes
    nothing but the current cell value into the static member and nothing
    but the class's handler into the cell; the destructor writes nothing
    but the saved handler into the cell. *)
Theorem ctor_dtor_effects (p : process) :
  (res (GgmlTerminateHandler_ctor p) = Done tt /\
   environ (final (GgmlTerminateHandler_ctor p)) = environ p /\
   Forall (fun e => e = EvStorePrevious (terminate_slot p) \/
                    e = EvSetTerminate addr_custom)
          (trace (GgmlTerminateHandler_ctor p))) /\
  (res (GgmlTerminateHandler_dtor p) = Done tt /\
   environ (final (GgmlTerminateHandler_dtor p)) = environ p /\
   Forall (fun e => e = EvSetTerminate (s_previous_handler p))
          (trace (GgmlTerminateHandler_dtor p))).
Proof.
  split.
  - destruct (opted_out p) eqn:Ho.
    + rewrite (ctor_opted_out p Ho). cbn. auto.
    + destruct (slot_cases p) as [Hs|Hs].
      * rewrite (ctor_already_installed p Ho Hs). cbn. rewrite Hs.
        repeat split. constructor; [left; reflexivity | constructor].
      * rewrite (ctor_installs p Ho Hs). cbn.
        repeat split. constructor; [left; reflexivity|].
        constructor; [right; reflexivity | constructor].
  - destruct (slot_cases p) as [Hs|Hs].
    + rewrite (dtor_restores p Hs). cbn. repeat split. repeat constructor.
    + rewrite (dtor_skips p Hs). cbn. auto.
Qed.

Lemma lookup_env_setenv_other (name value : string) (p : process) :
  name <> "GGML_NO_BACKTRACE" ->
  opted_out (setenv name value p) = opted_out p.
Proof.
  intro Hn. unfold opted_out, setenv. cbn [environ lookup_env].
  destruct (String.eqb_spec name "GGML_NO_BACKTRACE"); [contradiction|].
  reflexivity.
Qed.

(** X6 (what opts out).  Setting [GGML_NO_BACKTRACE] to any value at all,
    the empty string and ["0"] included, turns the next construction into
    a no-op; setting any other variable changes nothing about what the
    constructor does. *)
Theorem opt_out_by_presence (name value : string) (p : process) :
  GgmlTerminateHandler_ctor (setenv "GGML_NO_BACKTRACE" value p)
  = mkRun [] (Done tt) (setenv "GGML_NO_BACKTRACE" value p) /\
  (name <> "GGML_NO_BACKTRACE" ->
   trace (GgmlTerminateHandler_ctor (setenv name value p))
   = trace (GgmlTerminateHandler_ctor p) /\
   final (GgmlTerminateHandler_ctor (setenv name value p))
   = setenv name value (final (GgmlTerminateHandler_ctor p))).
Proof.
  split.
  - apply ctor_opted_out. reflexivity.
  - intro Hn. pose proof (lookup_env_setenv_other value p Hn) as Ho.
    destruct (opted_out p) eqn:E.
    + rewrite (ctor_opted_out _ Ho), (ctor_opted_out p E). split; reflexivity.
    + destruct (slot_cases p) as [Hs|Hs].
      * rewrite (ctor_already_installed (setenv name value p) Ho Hs).
        rewrite (ctor_already_installed p E Hs). split; reflexivity.
      * rewrite (ctor_installs (setenv name value p) Ho Hs).
        rewrite (ctor_installs p E Hs). split; reflexivity.
Qed.

Lemma opt_out_by_presence_witness :
  GgmlTerminateHandler_ctor
    (setenv "GGML_NO_BACKTRACE" "0" (at_load [] (foreign 7)))
  = mkRun [] (Done tt) (setenv "GGML_NO_BACKTRACE" "0" (at_load [] (foreign 7))) /\
  trace (GgmlTerminateHandler_ctor
           (setenv "GGML_BACKTRACE" "0" (at_load [] (foreign 7))))
  = [EvStorePrevious (foreign 7); EvSetTerminate addr_custom].
Proof.
  split.
  - exact (proj1 (opt_out_by_presence "GGML_BACKTRACE" "0" (at_load [] (foreign 7)))).
  - refine (proj1 (proj2 (opt_out_by_presence "GGML_BACKTRACE" "0"
                            (at_load [] (foreign 7))) _)).
    discriminate.
Defined.

(* ------------------------------------------------------------------ *)
(** ** The library's lifetime *)

Lemma load_unload_clean (p : process) :
  terminate_slot p <> addr_custom ->
  terminate_slot (load_unload p) = terminate_slot p /\
  environ (load_unload p) = environ p /\
  s_previous_handler (load_unload p)
  = (if opted_out p then nullptr else terminate_slot p).
Proof.
  intro Hs. unfold load_unload, library_load, library_unload.
  destruct (opted_out p) eqn:Ho.
  - rewrite (ctor_opted_out (at_load (environ p) (terminate_slot p)) Ho).
    cbn [final]. rewrite dtor_skips by exact Hs. cbn. auto.
  - rewrite (ctor_installs (at_load (environ p) (terminate_slot p)) Ho Hs).
    cbn [final]. rewrite dtor_restores by reflexivity. cbn. auto.
Qed.

(** X7 (repeated load and unload).  From a state whose handler cell does
    not hold the library's handler, any number of load-unload rounds ends
    with the cell and the environment as they were at the start: nothing
    of the library is left in the cell, with or without the opt-out. *)
Theorem load_unload_rounds (n : nat) (p : process) :
  terminate_slot p <> addr_custom ->
  terminate_slot (Nat.iter n load_unload p) = terminate_slot p /\
  environ (Nat.iter n load_unload p) = environ p.
Proof.
  intro Hs. induction n as [|n [IHs IHe]]; [split; reflexivity|].
  rewrite !Nat.iter_succ.
  assert (Hs' : terminate_slot (Nat.iter n load_unload p) <> addr_custom)
    by (rewrite IHs; exact Hs).
  destruct (load_unload_clean (Nat.iter n load_unload p) Hs') as (H1 & H2 & _).
  split; [rewrite H1; exact IHs | rewrite H2; exact IHe].
Qed.

Lemma load_unload_rounds_witness :
  terminate_slot (Nat.iter 3 load_unload (mkProcess [] (foreign 7) (foreign 2)))
  = foreign 7.
Proof.
  refine (proj1 (@load_unload_rounds 3 (mkProcess [] (foreign 7) (foreign 2)) _)).
  discriminate.
Defined.

(** X8 (invariant of an alternating lifetime).  When loads and unloads
    of the library alternate from a start whose handler cell does not hold
    the library's handler, and the host (free to change the environment
    and the cell at any time) does not put that handler into the cell
    while the library is unloaded, then in every state on the way the
    saved handler is not the library's handler, and while the library is
    unloaded the cell does not hold the library's handler: no pointer into
    the unloaded library is left behind. *)
Theorem alternating_lifetime_invariant (e0 : environment) (v0 : terminate_handler)
      (loaded : bool) (p : process) :
  v0 <> addr_custom ->
  reachable e0 v0 loaded p ->
  s_previous_handler p <> addr_custom /\
  (loaded = false -> terminate_slot p <> addr_custom).
Proof.
  intros Hv Hreach.
  induction Hreach as [ | p _ [IHp IHs] | p _ [IHp _]
                        | loaded p h Hh _ [IHp IHs] | loaded p name value _ IH ].
  - split; [discriminate | intros _; exact Hv].
  - specialize (IHs eq_refl). split; [|discriminate].
    unfold library_load.
    destruct (opted_out p) eqn:Ho.
    + rewrite (ctor_opted_out (at_load (environ p) (terminate_slot p)) Ho).
      discriminate.
    + rewrite (ctor_installs (at_load (environ p) (terminate_slot p)) Ho IHs).
      exact IHs.
  - unfold library_unload. destruct (slot_cases p) as [Hs|Hs].
    + rewrite (dtor_restores p Hs). cbn. split; [exact IHp | intros _; exact IHp].
    + rewrite (dtor_skips p Hs). cbn. split; [exact IHp | intros _; exact Hs].
  - split; [exact IHp | exact Hh].
  - exact IH.
Qed.

Lemma alternating_lifetime_invariant_witness :
  s_previous_handler
    (final (library_load
       (other_party_sets (foreign 9)
          (final (library_unload
             (final (library_load (at_load [] (foreign 7)))))))))
  <> addr_custom.
Proof.
  refine (proj1 (@alternating_lifetime_invariant [] (foreign 7) true _ _ _)).
  - discriminate.
  - apply reach_load. apply reach_set_terminate; [intros _; discriminate|].
    apply reach_unload. apply reach_load. apply reach_start.
Defined.
